(** * Surge-arrester selection: the calculation functions of [src/app.py]

    A shallow embedding of the calculation functions of the Streamlit
    application and of the block that runs them when "Calcular" is pressed,
    followed by the properties the specification states about them.

    Numbers.  The Python code computes with [float] and [int].  A [float] is
    read here as the real number it stands for (the specification states its
    formulas over the reals), an [int] as an integer of [Z], injected with
    [IZR] where Python would promote it.  Rounding errors of binary64
    arithmetic are therefore outside this development; what Python does
    besides arithmetic (raising on a zero divisor or on a logarithm outside
    its domain, the order of the tests, the order of evaluation) is kept. *)

From Stdlib Require Import Reals Lra Lia ZArith List Sorted.
Import ListNotations.

Open Scope R_scope.

(** ** What a Python call can do: return, raise, warn *)

Module Py.

(** The exceptions the arithmetic of the source can raise. *)
Inductive exn : Type :=
| ZeroDivisionError   (* [a / b] with [b == 0] *)
| ValueError.         (* [math.log(x)] with [x <= 0] *)

(** Warnings a call may issue.  The specification names one; the source
    has no call that issues any. *)
Inductive warning : Type :=
| SaturationWarning.

(** The outcome of a call: the value returned together with the warnings
    issued on the way, or the exception raised. *)
Inductive outcome (A : Type) : Type :=
| Returned (v : A) (ws : list warning)
| Raised (e : exn).

Arguments Returned {A} v ws.
Arguments Raised {A} e.

Definition ret {A : Type} (v : A) : outcome A := Returned v [].

Definition bind {A B : Type} (m : outcome A) (k : A -> outcome B) : outcome B :=
  match m with
  | Raised e => Raised e
  | Returned v ws =>
      match k v with
      | Returned v' ws' => Returned v' (ws ++ ws')
      | Raised e => Raised e
      end
  end.

(** [a / b] on floats. *)
Definition div (a b : R) : outcome R :=
  if Req_dec_T b 0 then Raised ZeroDivisionError else ret (a / b).

(** [math.log(x)]. *)
Definition log (x : R) : outcome R :=
  if Rle_dec x 0 then Raised ValueError else ret (ln x).

(** [max(a, b)]: the second argument replaces the first only when it is
    strictly greater. *)
Definition max (a b : R) : R := if Rgt_dec b a then b else a.

(** [round(x)] with one argument: the nearest integer, a tie going to the
    even neighbour.  [up x - 1] is the floor of [x]. *)
Definition round (x : R) : Z :=
  let f := (up x - 1)%Z in
  if Rlt_dec (x - IZR f) (1 / 2) then f
  else if Rgt_dec (x - IZR f) (1 / 2) then (f + 1)%Z
  else if Z.even f then f else (f + 1)%Z.

End Py.

Import Py.

Notation "x <- m ;; k" := (bind m (fun x => k))
  (at level 61, m at next level, right associativity).

(** ** The calculation functions *)

(** [calculate_cov]: [1.05 * (U_m / math.sqrt(3))].  The divisor is the
    constant [sqrt 3], never zero, so the call cannot raise. *)
Definition calculate_cov (U_m : R) : R := 1.05 * (U_m / sqrt 3).

(** [calculate_tov]: [K_e * cov]. *)
Definition calculate_tov (cov K_e : R) : R := K_e * cov.

(** [calculate_rated_voltage]: the two candidates and their maximum, in the
    order of the returned tuple. *)
Definition calculate_rated_voltage (cov tov k_d k_tov : R) : outcome (R * R * R) :=
  U_r1 <- div cov k_d ;;
  U_r2 <- div tov k_tov ;;
  ret (max U_r1 U_r2, U_r1, U_r2).

(** The catalog literal of [normalized_rated_voltage]. *)
Definition standard_values : list Z :=
  [96; 108; 120; 144; 156; 168; 180; 192; 216; 228; 240; 258; 264; 276;
   288; 300; 312; 330; 336; 360; 396]%Z.

(** The [for value in standard_values] loop: the first value with
    [value >= U_r_theoretical] is returned; [None] when the loop runs out. *)
Fixpoint first_at_least (values : list Z) (U_r_theoretical : R) : option Z :=
  match values with
  | [] => None
  | value :: rest =>
      if Rge_dec (IZR value) U_r_theoretical then Some value
      else first_at_least rest U_r_theoretical
  end.

(** [normalized_rated_voltage]: the loop, then [standard_values[-1]]. *)
Definition normalized_rated_voltage (U_r_theoretical : R) : Z :=
  match first_at_least standard_values U_r_theoretical with
  | Some value => value
  | None => last standard_values 0%Z
  end.

(** [calculate_incident_voltage]; [num_insulators] is an integer widget. *)
Definition calculate_incident_voltage (num_insulators : Z) (insulator_length sigma : R)
  : R * R * R :=
  let w := IZR num_insulators * insulator_length in
  let V_50 := 550 * w in
  let V_i := V_50 * (1 - 1.3 * sigma) in
  (V_i, V_50, w).

(** The [if]/[elif] chain of [calculate_discharge_current]. *)
Definition nominal_discharge_current (I_d : R) : Z :=
  if Rle_dec I_d 5 then 5%Z
  else if Rle_dec I_d 10 then 10%Z
  else if Rle_dec I_d 20 then 20%Z
  else 20%Z.

(** [calculate_discharge_current]. *)
Definition calculate_discharge_current (V_i Z_0 : R) : outcome (R * Z) :=
  I_d <- div (2 * V_i) Z_0 ;;
  ret (I_d, nominal_discharge_current I_d).

(** The [if]/[elif] chain of [calculate_energy_absorption]. *)
Definition discharge_class_of (W_prime : R) : Z :=
  if Rle_dec W_prime 1 then 1%Z
  else if Rle_dec W_prime 2 then 2%Z
  else if Rle_dec W_prime 3 then 3%Z
  else if Rle_dec W_prime 4 then 4%Z
  else 5%Z.

(** [calculate_energy_absorption]; [N] and [n] are integer widgets.  The
    operations that can raise appear in Python's order of evaluation. *)
Definition calculate_energy_absorption
  (V_50 U_res U_r Z_0 line_length v : R) (N n : Z) : outcome (R * R * R * Z) :=
  T_w <- div line_length v ;;
  q <- div (2 * V_50) U_res ;;
  l <- log q ;;
  W <- div ((2 * V_50 - IZR N * U_res * (1 + l)) * (U_res * T_w * IZR n)) Z_0 ;;
  W_prime <- div W (U_r * 1000) ;;
  ret (W, W_prime, T_w, discharge_class_of W_prime).

(** [estimate_switching_impulse_protection_level]. *)
Definition estimate_switching_impulse_protection_level (U_r : R) : Z :=
  round (U_r * 1.85).

(** The module-level [if]/[elif] that selects [Z_0] from [system_voltage];
    [145 <= system_voltage <= 345] is Python's chained comparison. *)
Definition select_Z_0 (system_voltage : R) : Z :=
  if Rlt_dec system_voltage 145 then 450%Z
  else if Rle_dec 145 system_voltage then
         if Rle_dec system_voltage 345 then 400%Z else 350%Z
  else 350%Z.

(** ** The block run by the "Calcular" button

    The block calls the functions one after the other and renders each
    result with [st.markdown] as soon as it has it.  What has been rendered
    is state of the page: an exception raised later stops the script and
    leaves it on display. *)

Module App.

(** The widget values the block reads (module-level variables of the
    script).  [U_res], [num_insulators], [N] and [n] are integer widgets. *)
Record inputs : Type := {
  U_m : R; K_e : R; k_d : R; k_tov : R;
  num_insulators : Z; insulator_length : R; sigma : R;
  system_voltage : R;
  U_res : Z; line_length : R; v : R; N : Z; n : Z
}.

(** The bounds [min_value] and [max_value] of the widgets. *)
Definition in_widget_ranges (i : inputs) : Prop :=
  100 <= U_m i <= 500 /\ 1 <= K_e i <= 2 /\
  0.5 <= k_d i <= 0.95 /\ 1 <= k_tov i <= 1.5 /\
  (10 <= num_insulators i <= 50)%Z /\ 0.1 <= insulator_length i <= 0.5 /\
  0.01 <= sigma i <= 0.1 /\ 100 <= system_voltage i <= 500 /\
  (300 <= U_res i <= 600)%Z /\ 1 <= line_length i <= 100 /\
  0.2 <= v i <= 0.4 /\ (1 <= N i <= 5)%Z /\ (1 <= n i <= 5)%Z.

(** What the block puts on the page: one element for each rendering call
    that shows a computed value, fifteen in all.  These are the [st.markdown]
    of the eight expanders, the summary table ([st.table]), the chart
    ([st.altair_chart]) and the five [st.success] boxes of the
    recommendation.  Titles and fixed text, the [st.info] before the boxes
    included, carry no value and are left out. *)
Inductive element : Type :=
| ShowCOV (cov : R)
| ShowTOV (tov : R)
| ShowRated (U_r1 U_r2 U_r_theoretical : R)
| ShowNormalized (U_r : Z)
| ShowIncident (w V_50 V_i : R)
| ShowImpedance (Z_0 : Z)
| ShowCurrent (I_d : R) (I_d_nominal : Z)
| ShowEnergy (T_w W W_prime : R) (discharge_class : Z)
| ShowSummary (U_r I_d_nominal discharge_class : Z) (W_prime : R) (U_res NPM : Z)
| ShowChart (cov tov U_r1 U_r2 : R) (U_r : Z) (V_i : R)
| ShowSelectedVoltage (U_r : Z)
| ShowSelectedCurrent (I_d_nominal : Z)
| ShowSelectedClass (discharge_class : Z)
| ShowLightningLevel (U_res : Z)
| ShowSwitchingLevel (NPM : Z).

(** A script step: from what is on the page to an outcome and what is on
    the page afterwards. *)
Definition script (A : Type) : Type := list element -> outcome A * list element.

Definition call {A : Type} (m : outcome A) : script A :=
  fun shown => (m, shown).

(** A rendering call ([st.markdown], and in the same way [st.table],
    [st.altair_chart] and [st.success]): it appends its element to the page. *)
Definition markdown (e : element) : script unit :=
  fun shown => (ret tt, shown ++ [e]).

Definition and_then {A B : Type} (s : script A) (k : A -> script B) : script B :=
  fun shown =>
    match s shown with
    | (Raised e, shown1) => (Raised e, shown1)
    | (Returned a ws, shown1) =>
        match k a shown1 with
        | (Raised e, shown2) => (Raised e, shown2)
        | (Returned b ws', shown2) => (Returned b (ws ++ ws'), shown2)
        end
    end.

Notation "x <~ s ;; k" := (and_then s (fun x => k))
  (at level 61, s at next level, right associativity).
Notation "s ;;; k" := (and_then s (fun _ => k))
  (at level 61, right associativity).

(** The body of [if st.sidebar.button("Calcular")], top to bottom. *)
Definition calcular (i : inputs) : script unit :=
  let Z_0 := select_Z_0 (system_voltage i) in
  let cov := calculate_cov (U_m i) in
  markdown (ShowCOV cov) ;;;
  let tov := calculate_tov cov (K_e i) in
  markdown (ShowTOV tov) ;;;
  rated <~ call (calculate_rated_voltage cov tov (k_d i) (k_tov i)) ;;
  let '(U_r_theoretical, U_r1, U_r2) := rated in
  markdown (ShowRated U_r1 U_r2 U_r_theoretical) ;;;
  let U_r := normalized_rated_voltage U_r_theoretical in
  markdown (ShowNormalized U_r) ;;;
  let '(V_i, V_50, w) :=
    calculate_incident_voltage (num_insulators i) (insulator_length i) (sigma i) in
  markdown (ShowIncident w V_50 V_i) ;;;
  markdown (ShowImpedance Z_0) ;;;
  current <~ call (calculate_discharge_current V_i (IZR Z_0)) ;;
  let '(I_d, I_d_nominal) := current in
  markdown (ShowCurrent I_d I_d_nominal) ;;;
  energy <~ call (calculate_energy_absorption V_50 (IZR (U_res i)) (IZR U_r)
                    (IZR Z_0) (line_length i) (v i) (N i) (n i)) ;;
  let '(W, W_prime, T_w, discharge_class) := energy in
  markdown (ShowEnergy T_w W W_prime discharge_class) ;;;
  let NPM := estimate_switching_impulse_protection_level (IZR U_r) in
  markdown (ShowSummary U_r I_d_nominal discharge_class W_prime (U_res i) NPM) ;;;
  markdown (ShowChart cov tov U_r1 U_r2 U_r V_i) ;;;
  markdown (ShowSelectedVoltage U_r) ;;;
  markdown (ShowSelectedCurrent I_d_nominal) ;;;
  markdown (ShowSelectedClass discharge_class) ;;;
  markdown (ShowLightningLevel (U_res i)) ;;;
  markdown (ShowSwitchingLevel NPM).

(** The page at the three points where the block calls a function that can
    raise, and at its end. *)
Definition page_at_rated_voltage (i : inputs) : list element :=
  let cov := calculate_cov (U_m i) in
  [ShowCOV cov; ShowTOV (calculate_tov cov (K_e i))].

Definition page_at_discharge_current (i : inputs) (rated : R * R * R) : list element :=
  let '(U_r_theoretical, U_r1, U_r2) := rated in
  let '(V_i, V_50, w) :=
    calculate_incident_voltage (num_insulators i) (insulator_length i) (sigma i) in
  page_at_rated_voltage i ++
  [ShowRated U_r1 U_r2 U_r_theoretical;
   ShowNormalized (normalized_rated_voltage U_r_theoretical);
   ShowIncident w V_50 V_i;
   ShowImpedance (select_Z_0 (system_voltage i))].

Definition page_at_energy (i : inputs) (rated : R * R * R) (current : R * Z)
  : list element :=
  let '(I_d, I_d_nominal) := current in
  page_at_discharge_current i rated ++ [ShowCurrent I_d I_d_nominal].

Definition page_complete (i : inputs) (rated : R * R * R) (current : R * Z)
  (energy : R * R * R * Z) : list element :=
  let '(U_r_theoretical, U_r1, U_r2) := rated in
  let '(V_i, V_50, w) :=
    calculate_incident_voltage (num_insulators i) (insulator_length i) (sigma i) in
  let '(I_d, I_d_nominal) := current in
  let '(W, W_prime, T_w, discharge_class) := energy in
  let cov := calculate_cov (U_m i) in
  let U_r := normalized_rated_voltage U_r_theoretical in
  let NPM := estimate_switching_impulse_protection_level (IZR U_r) in
  page_at_energy i rated current ++
  [ShowEnergy T_w W W_prime discharge_class;
   ShowSummary U_r I_d_nominal discharge_class W_prime (U_res i) NPM;
   ShowChart cov (calculate_tov cov (K_e i)) U_r1 U_r2 U_r V_i;
   ShowSelectedVoltage U_r; ShowSelectedCurrent I_d_nominal;
   ShowSelectedClass discharge_class; ShowLightningLevel (U_res i);
   ShowSwitchingLevel NPM].

(** The three calls of the block that can raise, with the arguments the
    block gives them. *)
Definition rated_voltage_call (i : inputs) : outcome (R * R * R) :=
  let cov := calculate_cov (U_m i) in
  calculate_rated_voltage cov (calculate_tov cov (K_e i)) (k_d i) (k_tov i).

Definition discharge_current_call (i : inputs) : outcome (R * Z) :=
  let '(V_i, V_50, w) :=
    calculate_incident_voltage (num_insulators i) (insulator_length i) (sigma i) in
  calculate_discharge_current V_i (IZR (select_Z_0 (system_voltage i))).

Definition energy_call (i : inputs) (rated : R * R * R) : outcome (R * R * R * Z) :=
  let '(U_r_theoretical, U_r1, U_r2) := rated in
  let '(V_i, V_50, w) :=
    calculate_incident_voltage (num_insulators i) (insulator_length i) (sigma i) in
  calculate_energy_absorption V_50 (IZR (U_res i))
    (IZR (normalized_rated_voltage U_r_theoretical))
    (IZR (select_Z_0 (system_voltage i))) (line_length i) (v i) (N i) (n i).

(** The default values of the widgets (the case study of the source). *)
Definition defaults : inputs := {|
  U_m := 245; K_e := 1.4; k_d := 0.8; k_tov := 1.15;
  num_insulators := 23; insulator_length := 0.146; sigma := 0.03;
  system_voltage := 245;
  U_res := 452; line_length := 22.94; v := 0.3; N := 1; n := 2
|}.

(** The elements of a page that show a value of the final selection. *)
Definition shows_selection (e : element) : bool :=
  match e with
  | ShowSummary _ _ _ _ _ _ | ShowChart _ _ _ _ _ _
  | ShowSelectedVoltage _ | ShowSelectedCurrent _ | ShowSelectedClass _
  | ShowLightningLevel _ | ShowSwitchingLevel _ => true
  | _ => false
  end.

End App.

(** ** Reading a rounded figure

    A figure quoted with two decimals stands for the numbers that round to
    it: those within half a unit of the last decimal. *)
Definition to_two_decimals (x quoted : R) : Prop := Rabs (x - quoted) <= 0.005.

(** * Properties *)

(** ** Python primitives *)

Lemma max_is_Rmax (a b : R) : max a b = Rmax a b.
Proof.
  unfold max, Rmax.
  destruct (Rgt_dec b a) as [Hgt | Hngt], (Rle_dec a b) as [Hle | Hnle];
    try reflexivity; lra.
Qed.

Lemma div_nonzero (a b : R) : b <> 0 -> div a b = ret (a / b).
Proof.
  intros Hb. unfold div. destruct (Req_dec_T b 0) as [E | _]; [contradiction | reflexivity].
Qed.

Lemma div_zero (a : R) : div a 0 = Raised ZeroDivisionError.
Proof.
  unfold div. destruct (Req_dec_T 0 0) as [_ | E]; [reflexivity | now elim E].
Qed.

Lemma div_raises (a b : R) (e : exn) : div a b = Raised e -> b = 0 /\ e = ZeroDivisionError.
Proof.
  unfold div, ret. destruct (Req_dec_T b 0) as [E | _]; intros H; inversion H; auto.
Qed.

Lemma log_positive (x : R) : 0 < x -> log x = ret (ln x).
Proof.
  intros Hx. unfold log. destruct (Rle_dec x 0) as [H | _]; [lra | reflexivity].
Qed.

Lemma log_raises (x : R) (e : exn) : log x = Raised e -> x <= 0 /\ e = ValueError.
Proof.
  unfold log, ret. destruct (Rle_dec x 0) as [H | _]; intros E; inversion E; auto.
Qed.

(** ** The catalog scan *)

Lemma standard_values_sorted : StronglySorted Z.lt standard_values.
Proof.
  unfold standard_values.
  repeat (apply SSorted_cons; [ | repeat (apply Forall_cons; [lia | ]); apply Forall_nil ]).
  apply SSorted_nil.
Qed.

Lemma first_at_least_found (values : list Z) (x : R) (r : Z) :
  first_at_least values x = Some r -> In r values /\ x <= IZR r.
Proof.
  induction values as [ | value rest IH]; simpl; [discriminate | ].
  destruct (Rge_dec (IZR value) x) as [Hge | Hnge]; intros H.
  - inversion H; subst. split; [now left | lra].
  - destruct (IH H) as [Hin Hle]. split; [now right | exact Hle].
Qed.

Lemma first_at_least_none (values : list Z) (x : R) :
  first_at_least values x = None <-> (forall c, In c values -> IZR c < x).
Proof.
  induction values as [ | value rest IH]; simpl.
  - split; [intros _ c [] | reflexivity].
  - destruct (Rge_dec (IZR value) x) as [Hge | Hnge]; split; intros H.
    + discriminate.
    + specialize (H value (or_introl eq_refl)). lra.
    + intros c [<- | Hin]; [lra | now apply IH].
    + apply IH. intros c Hin. apply H. now right.
Qed.

(** In an ascending list the scan stops at the least admissible value. *)
Lemma first_at_least_least (values : list Z) (x : R) (r : Z) :
  StronglySorted Z.lt values ->
  first_at_least values x = Some r ->
  forall c, In c values -> x <= IZR c -> (r <= c)%Z.
Proof.
  induction values as [ | value rest IH]; simpl; [discriminate | ].
  intros Hsorted Hscan c Hc Hxc.
  apply StronglySorted_inv in Hsorted. destruct Hsorted as [Hrest Hall].
  rewrite Forall_forall in Hall.
  destruct (Rge_dec (IZR value) x) as [Hge | Hnge].
  - inversion Hscan; subst. destruct Hc as [<- | Hin]; [lia | ].
    specialize (Hall c Hin). lia.
  - destruct Hc as [<- | Hin]; [lra | ]. now apply (IH Hrest Hscan c).
Qed.

Lemma normalized_in_catalog (x : R) : In (normalized_rated_voltage x) standard_values.
Proof.
  unfold normalized_rated_voltage.
  destruct (first_at_least standard_values x) as [r | ] eqn:Hscan.
  - now apply first_at_least_found in Hscan.
  - simpl. repeat (try (left; reflexivity); right).
Qed.

(** C1: [normalized_rated_voltage] is the ceiling lookup of the catalog.
    Whenever some catalog value [c] is at least the input, the result is a
    catalog value at least the input and no larger than [c] (the smallest such
    value); an input equal to a catalog entry is returned as it is; an input
    above every catalog value gives the catalog maximum, 396. *)
Theorem normalized_rated_voltage_ceiling (U_r_theoretical : R) :
  (forall c, In c standard_values -> U_r_theoretical <= IZR c ->
     In (normalized_rated_voltage U_r_theoretical) standard_values /\
     U_r_theoretical <= IZR (normalized_rated_voltage U_r_theoretical) /\
     (normalized_rated_voltage U_r_theoretical <= c)%Z) /\
  (forall c, In c standard_values -> normalized_rated_voltage (IZR c) = c) /\
  ((forall c, In c standard_values -> IZR c < U_r_theoretical) ->
     normalized_rated_voltage U_r_theoretical = 396%Z) /\
  (396 < U_r_theoretical -> normalized_rated_voltage U_r_theoretical = 396%Z).
Proof.
  assert (Hceil : forall x c, In c standard_values -> x <= IZR c ->
            In (normalized_rated_voltage x) standard_values /\
            x <= IZR (normalized_rated_voltage x) /\
            (normalized_rated_voltage x <= c)%Z).
  { intros x c Hc Hxc. split; [apply normalized_in_catalog | ].
    unfold normalized_rated_voltage.
    destruct (first_at_least standard_values x) as [r | ] eqn:Hscan.
    - split; [now apply first_at_least_found in Hscan | ].
      exact (first_at_least_least _ _ _ standard_values_sorted Hscan c Hc Hxc).
    - pose proof (proj1 (first_at_least_none _ _) Hscan c Hc). lra. }
  assert (Habove : forall x, (forall c, In c standard_values -> IZR c < x) ->
            normalized_rated_voltage x = 396%Z).
  { intros x Hall. unfold normalized_rated_voltage.
    rewrite (proj2 (first_at_least_none _ _) Hall). reflexivity. }
  split; [apply Hceil | ]. split; [ | split].
  - intros c Hc.
    destruct (Hceil (IZR c) c Hc (Rle_refl _)) as (_ & Hle & Hge).
    apply le_IZR in Hle. lia.
  - apply Habove.
  - intros Hx. apply Habove. intros c Hc.
    assert (c <= 396)%Z.
    { unfold standard_values in Hc. simpl in Hc.
      repeat (destruct Hc as [<- | Hc]; [lia | ]). contradiction. }
    apply IZR_le in H. lra.
Qed.

(** C10: for every real input, positive or not, [normalized_rated_voltage]
    returns a member of the catalog list (the function is total: it has no
    failing path), and every input at most 96 gives the catalog minimum, 96. *)
Theorem normalized_rated_voltage_in_catalog (x : R) :
  In (normalized_rated_voltage x) standard_values /\
  (x <= 96 -> normalized_rated_voltage x = 96%Z).
Proof.
  split; [apply normalized_in_catalog | ].
  intros Hx. unfold normalized_rated_voltage, standard_values, first_at_least.
  destruct (Rge_dec (IZR 96) x) as [_ | Hn]; [reflexivity | lra].
Qed.

(** ** The theoretical rated voltage *)

Lemma calculate_rated_voltage_nonzero (cov tov k_d k_tov : R) :
  k_d <> 0 -> k_tov <> 0 ->
  calculate_rated_voltage cov tov k_d k_tov
  = Returned (Rmax (cov / k_d) (tov / k_tov), cov / k_d, tov / k_tov) [].
Proof.
  intros Hd Htov. unfold calculate_rated_voltage.
  rewrite (div_nonzero cov k_d Hd). simpl.
  rewrite (div_nonzero tov k_tov Htov). simpl.
  now rewrite max_is_Rmax.
Qed.

(** C2: for positive [k_d] and [k_tov], [calculate_rated_voltage] returns
    [max (cov / k_d) (tov / k_tov)] together with the two candidates
    [U_r1 = cov / k_d] and [U_r2 = tov / k_tov]. *)
Theorem calculate_rated_voltage_is_max (cov tov k_d k_tov : R) :
  0 < k_d -> 0 < k_tov ->
  calculate_rated_voltage cov tov k_d k_tov
  = Returned (Rmax (cov / k_d) (tov / k_tov), cov / k_d, tov / k_tov) [].
Proof.
  intros Hd Htov. apply calculate_rated_voltage_nonzero; lra.
Qed.

Lemma calculate_rated_voltage_is_max_witness :
  calculate_rated_voltage 4 9 2 3 = Returned (Rmax (4 / 2) (9 / 3), 4 / 2, 9 / 3) [].
Proof.
  apply (calculate_rated_voltage_is_max 4 9 2 3); lra.
Defined.

(** C3, as the specification states it, fails: with the negative factor
    [k_d = -1] the call does not raise, it returns the triple [(1, -1, 1)]. *)
Lemma calculate_rated_voltage_negative_factor :
  -1 <= 0 /\ calculate_rated_voltage 1 1 (-1) 1 = Returned (1, -1, 1) [].
Proof.
  split; [lra | ].
  rewrite calculate_rated_voltage_nonzero by lra.
  replace (1 / -1) with (-1) by lra. replace (1 / 1) with 1 by lra.
  rewrite Rmax_right by lra. reflexivity.
Qed.

(** C3 (amended): [calculate_rated_voltage] raises exactly when [k_d] or
    [k_tov] is zero, and what it raises is Python's [ZeroDivisionError]; for
    every other input, negative factors included, it returns the triple of
    the maximum and the two candidates. *)
Theorem calculate_rated_voltage_raises_iff_zero (cov tov k_d k_tov : R) :
  (k_d = 0 \/ k_tov = 0 ->
     calculate_rated_voltage cov tov k_d k_tov = Raised ZeroDivisionError) /\
  (forall e, calculate_rated_voltage cov tov k_d k_tov = Raised e ->
     e = ZeroDivisionError /\ (k_d = 0 \/ k_tov = 0)) /\
  (k_d <> 0 /\ k_tov <> 0 ->
     calculate_rated_voltage cov tov k_d k_tov
     = Returned (Rmax (cov / k_d) (tov / k_tov), cov / k_d, tov / k_tov) []).
Proof.
  assert (Hzero : k_d = 0 \/ k_tov = 0 ->
            calculate_rated_voltage cov tov k_d k_tov = Raised ZeroDivisionError).
  { unfold calculate_rated_voltage.
    destruct (Req_dec_T k_d 0) as [Hd | Hd].
    - intros _. subst k_d. now rewrite div_zero.
    - intros [H | H]; [contradiction | subst k_tov].
      rewrite (div_nonzero cov k_d Hd). simpl. now rewrite div_zero. }
  split; [exact Hzero | split].
  - intros e He.
    destruct (Req_dec_T k_d 0) as [Hd | Hd];
      [ | destruct (Req_dec_T k_tov 0) as [Ht | Ht] ].
    + rewrite (Hzero (or_introl Hd)) in He. inversion He. tauto.
    + rewrite (Hzero (or_intror Ht)) in He. inversion He. tauto.
    + rewrite (calculate_rated_voltage_nonzero cov tov k_d k_tov Hd Ht) in He.
      discriminate.
  - intros [Hd Ht]. now apply calculate_rated_voltage_nonzero.
Qed.

(** ** The characteristic impedance *)

(** C5: the selection of [Z_0] is a total three-band classification of
    [system_voltage]: below 145 kV it is 450, from 145 kV to 345 kV (both
    ends included) it is 400, and above 345 kV it is 350. *)
Theorem select_Z_0_bands (system_voltage : R) :
  (system_voltage < 145 -> select_Z_0 system_voltage = 450%Z) /\
  (145 <= system_voltage <= 345 -> select_Z_0 system_voltage = 400%Z) /\
  (345 < system_voltage -> select_Z_0 system_voltage = 350%Z) /\
  select_Z_0 145 = 400%Z /\ select_Z_0 345 = 400%Z /\
  (select_Z_0 system_voltage = 450%Z \/ select_Z_0 system_voltage = 400%Z \/
   select_Z_0 system_voltage = 350%Z).
Proof.
  assert (Hband : forall s,
            (s < 145 -> select_Z_0 s = 450%Z) /\
            (145 <= s <= 345 -> select_Z_0 s = 400%Z) /\
            (345 < s -> select_Z_0 s = 350%Z)).
  { intros s. unfold select_Z_0.
    destruct (Rlt_dec s 145), (Rle_dec 145 s), (Rle_dec s 345);
      repeat split; intros; try reflexivity; lra. }
  destruct (Hband system_voltage) as (Hlow & Hmid & Hhigh).
  repeat split; try assumption.
  - apply (Hband 145); lra.
  - apply (Hband 345); lra.
  - destruct (Rlt_dec system_voltage 145); [left; auto | right].
    destruct (Rle_dec system_voltage 345); [left; apply Hmid; lra | right; apply Hhigh; lra].
Qed.

(** ** The discharge current *)

Lemma nominal_discharge_current_ceiling (I_d : R) :
  (I_d <= 20 ->
     In (nominal_discharge_current I_d) [5; 10; 20]%Z /\
     I_d <= IZR (nominal_discharge_current I_d) /\
     (forall c, In c [5; 10; 20]%Z -> I_d <= IZR c ->
        (nominal_discharge_current I_d <= c)%Z)) /\
  (20 < I_d -> nominal_discharge_current I_d = 20%Z).
Proof.
  unfold nominal_discharge_current.
  destruct (Rle_dec I_d 5) as [H5 | H5];
    [ | destruct (Rle_dec I_d 10) as [H10 | H10];
        [ | destruct (Rle_dec I_d 20) as [H20 | H20] ] ];
    (split; [intros Hle | intros Hgt; try reflexivity; try lra]).
  all: try lra.
  all: split; [simpl; tauto | split; [lra | ]].
  all: intros c [<- | [<- | [<- | []]]] Hc; try lia; lra.
Qed.

(** C4, as the specification states it, fails on the warning: for
    [V_i = 5000] and [Z_0 = 400] the computed current is above 20, the call
    returns the nominal value 20, and no warning comes with the result. *)
Lemma calculate_discharge_current_saturates_silently :
  exists I_d ws,
    calculate_discharge_current 5000 400 = Returned (I_d, 20%Z) ws /\
    20 < I_d /\ ~ In SaturationWarning ws.
Proof.
  exists (2 * 5000 / 400), []. split; [ | split; [lra | intros []]].
  unfold calculate_discharge_current.
  rewrite div_nonzero by lra. simpl.
  now rewrite (proj2 (nominal_discharge_current_ceiling (2 * 5000 / 400))) by lra.
Qed.

(** C4 (amended): for a nonzero [Z_0], [calculate_discharge_current] returns
    [I_d = 2 * V_i / Z_0] with the nominal current; up to 20 the nominal
    current is the smallest of 5, 10 and 20 that is at least [I_d]; above 20 it
    is 20, the call does not fail, and the result is the plain pair, with no
    warning issued. *)
Theorem calculate_discharge_current_ceiling (V_i Z_0 : R) :
  Z_0 <> 0 ->
  let I_d := 2 * V_i / Z_0 in
  calculate_discharge_current V_i Z_0
  = Returned (I_d, nominal_discharge_current I_d) [] /\
  (I_d <= 20 ->
     In (nominal_discharge_current I_d) [5; 10; 20]%Z /\
     I_d <= IZR (nominal_discharge_current I_d) /\
     (forall c, In c [5; 10; 20]%Z -> I_d <= IZR c ->
        (nominal_discharge_current I_d <= c)%Z)) /\
  (20 < I_d -> nominal_discharge_current I_d = 20%Z).
Proof.
  intros HZ I_d. split; [ | apply nominal_discharge_current_ceiling].
  unfold calculate_discharge_current. now rewrite div_nonzero by assumption.
Qed.

Lemma calculate_discharge_current_ceiling_witness :
  calculate_discharge_current 1774 400
  = Returned (2 * 1774 / 400, nominal_discharge_current (2 * 1774 / 400)) [] /\
  (2 * 1774 / 400 <= 20 ->
     In (nominal_discharge_current (2 * 1774 / 400)) [5; 10; 20]%Z /\
     2 * 1774 / 400 <= IZR (nominal_discharge_current (2 * 1774 / 400)) /\
     (forall c, In c [5; 10; 20]%Z -> 2 * 1774 / 400 <= IZR c ->
        (nominal_discharge_current (2 * 1774 / 400) <= c)%Z)) /\
  (20 < 2 * 1774 / 400 -> nominal_discharge_current (2 * 1774 / 400) = 20%Z).
Proof.
  apply (calculate_discharge_current_ceiling 1774 400). lra.
Defined.

(** ** The line-discharge energy *)

Lemma calculate_energy_absorption_class
  (V_50 U_res U_r Z_0 line_length v : R) (N n : Z)
  (W W_prime T_w : R) (cls : Z) (ws : list warning) :
  calculate_energy_absorption V_50 U_res U_r Z_0 line_length v N n
  = Returned (W, W_prime, T_w, cls) ws ->
  cls = discharge_class_of W_prime.
Proof.
  unfold calculate_energy_absorption, bind, div, log, ret.
  repeat match goal with
         | |- context [Req_dec_T ?a ?b] => destruct (Req_dec_T a b)
         | |- context [Rle_dec ?a 0] => destruct (Rle_dec a 0)
         end; intros H; inversion H; subst; reflexivity.
Qed.

Lemma calculate_energy_absorption_defined
  (V_50 U_res U_r Z_0 line_length v : R) (N n : Z) :
  v <> 0 -> U_res <> 0 -> 0 < 2 * V_50 / U_res -> Z_0 <> 0 -> U_r <> 0 ->
  let T_w := line_length / v in
  let W := (2 * V_50 - IZR N * U_res * (1 + ln (2 * V_50 / U_res)))
           * (U_res * T_w * IZR n) / Z_0 in
  calculate_energy_absorption V_50 U_res U_r Z_0 line_length v N n
  = Returned (W, W / (U_r * 1000), T_w, discharge_class_of (W / (U_r * 1000))) [].
Proof.
  intros Hv Hres Hq HZ Hr T_w W.
  unfold calculate_energy_absorption.
  rewrite (div_nonzero line_length v Hv). simpl.
  rewrite (div_nonzero (2 * V_50) U_res Hres). simpl.
  rewrite (log_positive _ Hq). simpl.
  rewrite (div_nonzero _ Z_0 HZ). simpl.
  rewrite (div_nonzero _ (U_r * 1000)) by (intros H0; apply Hr; lra).
  reflexivity.
Qed.

(** C6: for positive inputs the energy stage returns
    [T_w = line_length / v], the absorbed energy
    [W = (2 V_50 - N U_res (1 + ln (2 V_50 / U_res))) (U_res T_w n) / Z_0]
    and [W_prime], which is [W] divided by 1000 and then by [U_r]
    (the source divides by [U_r * 1000], the same number). *)
Theorem calculate_energy_absorption_formula
  (V_50 U_res U_r Z_0 line_length v : R) (N n : Z) :
  0 < V_50 -> 0 < U_res -> 0 < U_r -> 0 < Z_0 -> 0 < line_length -> 0 < v ->
  (0 < N)%Z -> (0 < n)%Z ->
  let T_w := line_length / v in
  let W := (2 * V_50 - IZR N * U_res * (1 + ln (2 * V_50 / U_res)))
           * (U_res * T_w * IZR n) / Z_0 in
  let W_prime := W / 1000 / U_r in
  calculate_energy_absorption V_50 U_res U_r Z_0 line_length v N n
  = Returned (W, W_prime, T_w, discharge_class_of W_prime) [].
Proof.
  intros HV Hres Hr HZ Hl Hv HN Hn T_w W W_prime.
  assert (Hq : 0 < 2 * V_50 / U_res)
    by (apply Rdiv_lt_0_compat; lra).
  rewrite calculate_energy_absorption_defined by (assumption || lra).
  fold T_w. fold W.
  replace (W / (U_r * 1000)) with W_prime
    by (unfold W_prime; field; lra).
  reflexivity.
Qed.

Lemma calculate_energy_absorption_formula_witness :
  calculate_energy_absorption 1847 452 192 400 22.94 0.3 1 2
  = Returned
      ((2 * 1847 - IZR 1 * 452 * (1 + ln (2 * 1847 / 452)))
         * (452 * (22.94 / 0.3) * IZR 2) / 400,
       (2 * 1847 - IZR 1 * 452 * (1 + ln (2 * 1847 / 452)))
         * (452 * (22.94 / 0.3) * IZR 2) / 400 / 1000 / 192,
       22.94 / 0.3,
       discharge_class_of
         ((2 * 1847 - IZR 1 * 452 * (1 + ln (2 * 1847 / 452)))
            * (452 * (22.94 / 0.3) * IZR 2) / 400 / 1000 / 192)) [].
Proof.
  apply (calculate_energy_absorption_formula 1847 452 192 400 22.94 0.3 1 2);
    lra || lia.
Defined.

(** C7: the discharge class of [W_prime] lies in 1..5; whenever some class
    [k] of 1..5 bounds [W_prime], the class assigned bounds it too and is at
    most [k] (the smallest such class); above 4 the class is 5; the class never
    decreases when [W_prime] grows.  This is the class that
    [calculate_energy_absorption] assigns: whenever its divisors are nonzero
    and its logarithm is defined the call returns, and the class it returns is
    that of the [W_prime] it returns; every real [W_prime] is returned by some
    call, with that class; and no call returns another class. *)
Theorem discharge_class_ceiling (W_prime : R) :
  (1 <= discharge_class_of W_prime <= 5)%Z /\
  (forall k, (1 <= k <= 5)%Z -> W_prime <= IZR k ->
     W_prime <= IZR (discharge_class_of W_prime) /\
     (discharge_class_of W_prime <= k)%Z) /\
  (4 < W_prime -> discharge_class_of W_prime = 5%Z) /\
  (forall W_prime', W_prime <= W_prime' ->
     (discharge_class_of W_prime <= discharge_class_of W_prime')%Z) /\
  (forall V_50 U_res U_r Z_0 line_length v N n,
     v <> 0 -> U_res <> 0 -> 0 < 2 * V_50 / U_res -> Z_0 <> 0 -> U_r <> 0 ->
     exists W W' T_w,
       calculate_energy_absorption V_50 U_res U_r Z_0 line_length v N n
       = Returned (W, W', T_w, discharge_class_of W') []) /\
  (exists W T_w,
     calculate_energy_absorption 500 1 1 1 W_prime 1 0 1
     = Returned (W, W_prime, T_w, discharge_class_of W_prime) []) /\
  (forall V_50 U_res U_r Z_0 line_length v N n W T_w cls ws,
     calculate_energy_absorption V_50 U_res U_r Z_0 line_length v N n
     = Returned (W, W_prime, T_w, cls) ws ->
     cls = discharge_class_of W_prime).
Proof.
  assert (Hrange : (1 <= discharge_class_of W_prime <= 5)%Z)
    by (unfold discharge_class_of; repeat destruct (Rle_dec _ _); lia).
  split; [exact Hrange | ]. split; [ | split; [ | split; [ | split; [ | split]]]].
  - intros k [Hlo Hhi] Hk.
    assert (Hcases : k = 1%Z \/ k = 2%Z \/ k = 3%Z \/ k = 4%Z \/ k = 5%Z) by lia.
    unfold discharge_class_of.
    destruct Hcases as [-> | [-> | [-> | [-> | ->]]]];
      repeat destruct (Rle_dec _ _); split; try lia; simpl; lra.
  - intros H4. unfold discharge_class_of.
    repeat destruct (Rle_dec _ _); try reflexivity; lra.
  - intros W' Hle. unfold discharge_class_of.
    repeat destruct (Rle_dec _ _); try lia; lra.
  - intros V_50 U_res U_r Z_0 line_length v N n Hv Hres Hq HZ Hr.
    rewrite calculate_energy_absorption_defined by assumption.
    eexists _, _, _. reflexivity.
  - rewrite calculate_energy_absorption_defined by lra.
    match goal with
    | |- exists W T_w, Returned (?w, ?w', ?t, _) [] = _ =>
        assert (Hw : w' = W_prime) by lra; rewrite Hw; exists w, t; reflexivity
    end.
  - intros. eapply calculate_energy_absorption_class; eassumption.
Qed.

(** ** The reference case: [U_m = 245], [K_e = 1.4], [k_d = 0.8], [k_tov = 1.15] *)

Lemma sqrt_3_bounds : 1.73205 < sqrt 3 < 1.73206.
Proof.
  pose proof (sqrt_pos 3) as Hpos.
  pose proof (sqrt_sqrt 3 ltac:(lra)) as Hsq.
  split; nra.
Qed.

Lemma calculate_cov_245_bounds : 148.5225 < calculate_cov 245 < 148.5236.
Proof.
  unfold calculate_cov.
  destruct sqrt_3_bounds as [Hlo Hhi].
  assert (Hq : 245 / sqrt 3 * sqrt 3 = 245) by (field; lra).
  set (q := 245 / sqrt 3) in *.
  assert (141.45 < q < 141.451) by (split; nra).
  lra.
Qed.

Lemma normalized_between_180_and_192 (x : R) :
  180 < x <= 192 -> normalized_rated_voltage x = 192%Z.
Proof.
  intros [Hlo Hhi]. unfold normalized_rated_voltage, standard_values, first_at_least.
  repeat match goal with
         | |- context [Rge_dec (IZR ?c) x] =>
             destruct (Rge_dec (IZR c) x); [try reflexivity; lra | ]
         end.
  lra.
Qed.

Lemma reference_rated_voltage :
  calculate_rated_voltage (calculate_cov 245) (calculate_tov (calculate_cov 245) 1.4)
    0.8 1.15
  = Returned (calculate_cov 245 / 0.8,
              calculate_cov 245 / 0.8,
              calculate_tov (calculate_cov 245) 1.4 / 1.15) [].
Proof.
  rewrite calculate_rated_voltage_nonzero by lra.
  pose proof calculate_cov_245_bounds as Hcov.
  rewrite Rmax_left; [reflexivity | ].
  unfold calculate_tov. lra.
Qed.

(** C8, as the specification states it, fails on the quoted figures: each
    of [cov], [tov], [U_r1], [U_r2] and [U_r_theoretical] that the pipeline
    computes for the reference inputs exceeds the figure quoted for it by more
    than 0.15, far outside two-decimal agreement. *)
Lemma reference_case_quoted_figures_off :
  exists U_r_theoretical U_r1 U_r2,
    calculate_rated_voltage (calculate_cov 245)
      (calculate_tov (calculate_cov 245) 1.4) 0.8 1.15
    = Returned (U_r_theoretical, U_r1, U_r2) [] /\
    0.15 < calculate_cov 245 - 148.37 /\
    0.15 < calculate_tov (calculate_cov 245) 1.4 - 207.72 /\
    0.15 < U_r1 - 185.46 /\
    0.15 < U_r2 - 180.63 /\
    0.15 < U_r_theoretical - 185.46 /\
    ~ to_two_decimals (calculate_cov 245) 148.37.
Proof.
  pose proof calculate_cov_245_bounds as Hcov.
  eexists _, _, _. split; [apply reference_rated_voltage | ].
  unfold calculate_tov, to_two_decimals.
  repeat split; try lra.
  intros Habs. rewrite Rabs_right in Habs; lra.
Qed.

(** C8 (amended): for the reference inputs the voltage pipeline gives, to two
    decimals, [cov = 148.52], [tov = 207.93], [U_r1 = 185.65],
    [U_r2 = 180.81] and [U_r_theoretical = 185.65], and the normalized rated
    voltage is 192. *)
Theorem reference_case_voltages :
  exists U_r_theoretical U_r1 U_r2,
    calculate_rated_voltage (calculate_cov 245)
      (calculate_tov (calculate_cov 245) 1.4) 0.8 1.15
    = Returned (U_r_theoretical, U_r1, U_r2) [] /\
    to_two_decimals (calculate_cov 245) 148.52 /\
    to_two_decimals (calculate_tov (calculate_cov 245) 1.4) 207.93 /\
    to_two_decimals U_r1 185.65 /\
    to_two_decimals U_r2 180.81 /\
    to_two_decimals U_r_theoretical 185.65 /\
    normalized_rated_voltage U_r_theoretical = 192%Z.
Proof.
  pose proof calculate_cov_245_bounds as Hcov.
  eexists _, _, _. split; [apply reference_rated_voltage | ].
  unfold calculate_tov, to_two_decimals.
  repeat split; try (apply Rabs_le; lra).
  apply normalized_between_180_and_192. lra.
Qed.

(** ** The block run by the button *)

Lemma select_Z_0_nonzero (system_voltage : R) : IZR (select_Z_0 system_voltage) <> 0.
Proof.
  unfold select_Z_0.
  destruct (Rlt_dec system_voltage 145), (Rle_dec 145 system_voltage),
    (Rle_dec system_voltage 345); lra.
Qed.

Ltac run_block :=
  unfold App.calcular, App.and_then, App.markdown, App.call, ret,
    App.rated_voltage_call, App.discharge_current_call, App.energy_call,
    App.page_complete, App.page_at_energy, App.page_at_discharge_current,
    App.page_at_rated_voltage, calculate_incident_voltage in *;
  cbv beta iota zeta in *.

Lemma calcular_rated_voltage_raises (i : App.inputs) (e : exn) :
  App.rated_voltage_call i = Raised e ->
  App.calcular i [] = (Raised e, App.page_at_rated_voltage i).
Proof.
  intros Hrated. run_block. rewrite Hrated. reflexivity.
Qed.

Lemma calcular_energy_raises (i : App.inputs) (rated : R * R * R) (current : R * Z)
  (e : exn) :
  App.rated_voltage_call i = Returned rated [] ->
  App.discharge_current_call i = Returned current [] ->
  App.energy_call i rated = Raised e ->
  App.calcular i [] = (Raised e, App.page_at_energy i rated current).
Proof.
  destruct rated as [[th r1] r2], current as [I_d I_nom].
  intros Hrated Hcurrent Henergy. run_block.
  rewrite Hrated. cbv beta iota. rewrite Hcurrent. cbv beta iota.
  rewrite Henergy. reflexivity.
Qed.

Lemma calcular_returns (i : App.inputs) (rated : R * R * R) (current : R * Z)
  (energy : R * R * R * Z) :
  App.rated_voltage_call i = Returned rated [] ->
  App.discharge_current_call i = Returned current [] ->
  App.energy_call i rated = Returned energy [] ->
  App.calcular i [] = (Returned tt [], App.page_complete i rated current energy).
Proof.
  destruct rated as [[th r1] r2], current as [I_d I_nom],
    energy as [[[W W_prime] T_w] cls].
  intros Hrated Hcurrent Henergy. run_block.
  rewrite Hrated. cbv beta iota. rewrite Hcurrent. cbv beta iota.
  rewrite Henergy. reflexivity.
Qed.

(** No call of the source issues a warning. *)
Lemma calculate_rated_voltage_no_warning (cov tov k_d k_tov : R) v ws :
  calculate_rated_voltage cov tov k_d k_tov = Returned v ws -> ws = [].
Proof.
  unfold calculate_rated_voltage, bind, div, ret.
  repeat match goal with
         | |- context [Req_dec_T ?a ?b] => destruct (Req_dec_T a b)
         end; intros H; inversion H; reflexivity.
Qed.

Lemma calculate_energy_absorption_no_warning
  (V_50 U_res U_r Z_0 line_length v : R) (N n : Z) r ws :
  calculate_energy_absorption V_50 U_res U_r Z_0 line_length v N n = Returned r ws ->
  ws = [].
Proof.
  unfold calculate_energy_absorption, bind, div, log, ret.
  repeat match goal with
         | |- context [Req_dec_T ?a ?b] => destruct (Req_dec_T a b)
         | |- context [Rle_dec ?a 0] => destruct (Rle_dec a 0)
         end; intros H; inversion H; reflexivity.
Qed.

(** In the block [Z_0] is one of 450, 400 and 350, so the discharge-current
    call always returns. *)
Lemma discharge_current_call_returns (i : App.inputs) :
  exists current, App.discharge_current_call i = Returned current [].
Proof.
  unfold App.discharge_current_call, calculate_incident_voltage,
    calculate_discharge_current. cbv beta iota zeta.
  rewrite div_nonzero by apply select_Z_0_nonzero.
  eexists. reflexivity.
Qed.

(** The run of the block is one of three: the rated-voltage call raises,
    the energy call raises, or every call returns. *)
Lemma calcular_cases (i : App.inputs) :
  (exists e, App.rated_voltage_call i = Raised e /\
             App.calcular i [] = (Raised e, App.page_at_rated_voltage i)) \/
  (exists rated current e,
     App.rated_voltage_call i = Returned rated [] /\
     App.discharge_current_call i = Returned current [] /\
     App.energy_call i rated = Raised e /\
     App.calcular i [] = (Raised e, App.page_at_energy i rated current)) \/
  (exists rated current energy,
     App.rated_voltage_call i = Returned rated [] /\
     App.discharge_current_call i = Returned current [] /\
     App.energy_call i rated = Returned energy [] /\
     App.calcular i [] = (Returned tt [], App.page_complete i rated current energy)).
Proof.
  destruct (App.rated_voltage_call i) as [rated ws | e] eqn:Hrated.
  - assert (ws = []) by (apply (calculate_rated_voltage_no_warning _ _ _ _ _ _ Hrated)).
    subst ws. right.
    destruct (discharge_current_call_returns i) as [current Hcurrent].
    destruct (App.energy_call i rated) as [energy ws | e] eqn:Henergy.
    + assert (ws = []).
      { destruct rated as [[th r1] r2].
        unfold App.energy_call, calculate_incident_voltage in Henergy.
        cbv beta iota zeta in Henergy.
        apply (calculate_energy_absorption_no_warning _ _ _ _ _ _ _ _ _ _ Henergy). }
      subst ws. right. exists rated, current, energy.
      repeat split; try assumption. now apply calcular_returns.
    + left. exists rated, current, e.
      repeat split; try assumption. now apply calcular_energy_raises.
  - left. exists e. split; [reflexivity | now apply calcular_rated_voltage_raises].
Qed.

(** The bounds of the widgets matter.  With the design factor [k_d = 0],
    which the widget does not allow (its [min_value] is 0.5), the
    rated-voltage call would raise after [cov] and [tov] were rendered. *)
Lemma calcular_exposes_earlier_results :
  App.calcular
    {| App.U_m := 245; App.K_e := 1.4; App.k_d := 0; App.k_tov := 1.15;
       App.num_insulators := 23; App.insulator_length := 0.146; App.sigma := 0.03;
       App.system_voltage := 245;
       App.U_res := 452; App.line_length := 22.94; App.v := 0.3;
       App.N := 1; App.n := 2 |} []
  = (Raised ZeroDivisionError,
     [App.ShowCOV (calculate_cov 245);
      App.ShowTOV (calculate_tov (calculate_cov 245) 1.4)]).
Proof.
  rewrite (calcular_rated_voltage_raises _ ZeroDivisionError); [reflexivity | ].
  unfold App.rated_voltage_call, calculate_rated_voltage. simpl.
  now rewrite div_zero.
Qed.

(** For arbitrary values, the bounds of the widgets set aside: a run that
    ends with an exception ends with the exception of the call that raised
    and has rendered nothing of the final selection; a run that returns has
    had every call return and shows the complete page. *)
Lemma calcular_stops_at_raising_call (i : App.inputs) :
  (forall e shown, App.calcular i [] = (Raised e, shown) ->
     existsb App.shows_selection shown = false /\
     ((App.rated_voltage_call i = Raised e /\
       shown = App.page_at_rated_voltage i) \/
      (exists rated current,
         App.rated_voltage_call i = Returned rated [] /\
         App.discharge_current_call i = Returned current [] /\
         App.energy_call i rated = Raised e /\
         shown = App.page_at_energy i rated current))) /\
  (forall u ws shown, App.calcular i [] = (Returned u ws, shown) ->
     ws = [] /\
     exists rated current energy,
       App.rated_voltage_call i = Returned rated [] /\
       App.discharge_current_call i = Returned current [] /\
       App.energy_call i rated = Returned energy [] /\
       shown = App.page_complete i rated current energy).
Proof.
  destruct (calcular_cases i)
    as [(e0 & Hrated & Hrun)
       | [(rated & current & e0 & Hrated & Hcurrent & Henergy & Hrun)
         | (rated & current & energy & Hrated & Hcurrent & Henergy & Hrun)]];
    rewrite Hrun; split; intros ? ? ?; try intros ?;
    match goal with H : (_, _) = (_, _) |- _ => inversion H; subst; clear H end.
  - split; [reflexivity | left; split; [assumption | reflexivity]].
  - split.
    + destruct rated as [[th r1] r2], current as [I_d I_nom]. reflexivity.
    + right. exists rated, current. repeat split; assumption.
  - split; [reflexivity | ]. exists rated, current, energy. repeat split; assumption.
Qed.

Lemma normalized_positive (x : R) : 0 < IZR (normalized_rated_voltage x).
Proof.
  pose proof (normalized_in_catalog x) as Hin.
  unfold standard_values in Hin. simpl in Hin.
  repeat (destruct Hin as [<- | Hin]; [lra | ]). contradiction.
Qed.

(** Within the bounds of the widgets every call returns, so the block
    renders the complete page: no raising input can be entered. *)
Lemma calcular_returns_in_widget_ranges (i : App.inputs) :
  App.in_widget_ranges i ->
  exists rated current energy,
    App.calcular i [] = (Returned tt [], App.page_complete i rated current energy).
Proof.
  intros (HUm & HKe & Hkd & Hktov & Hnum & Hlen & Hsigma & Hsv & Hres & Hll & Hv
          & HN & Hn).
  assert (Hrated : exists rated, App.rated_voltage_call i = Returned rated []).
  { unfold App.rated_voltage_call. cbv zeta.
    rewrite calculate_rated_voltage_nonzero by lra. eexists. reflexivity. }
  destruct Hrated as [[[th r1] r2] Hrated].
  destruct (discharge_current_call_returns i) as [current Hcurrent].
  assert (Hnum' : 10 <= IZR (App.num_insulators i)) by (apply IZR_le; lia).
  assert (Hres' : 300 <= IZR (App.U_res i)) by (apply IZR_le; lia).
  assert (Henergy : exists energy, App.energy_call i (th, r1, r2) = Returned energy []).
  { unfold App.energy_call, calculate_incident_voltage. cbv beta iota zeta.
    rewrite calculate_energy_absorption_defined.
    - eexists. reflexivity.
    - lra.
    - lra.
    - apply Rdiv_lt_0_compat; [nra | lra].
    - apply select_Z_0_nonzero.
    - pose proof (normalized_positive th). lra. }
  destruct Henergy as [energy Henergy].
  exists (th, r1, r2), current, energy. now apply calcular_returns.
Qed.

Lemma defaults_in_widget_ranges : App.in_widget_ranges App.defaults.
Proof.
  unfold App.in_widget_ranges, App.defaults. simpl. repeat split; lra || lia.
Qed.




(** ** The functions on the default widget values *)

Example normalized_rated_voltage_of_entry : normalized_rated_voltage 192 = 192%Z.
Proof. apply normalized_between_180_and_192. lra. Qed.

Example normalized_rated_voltage_of_negative : normalized_rated_voltage (-5) = 96%Z.
Proof.
  unfold normalized_rated_voltage, standard_values, first_at_least.
  destruct (Rge_dec (IZR 96) (-5)); [reflexivity | lra].
Qed.

Example select_Z_0_default : select_Z_0 245 = 400%Z.
Proof.
  unfold select_Z_0.
  destruct (Rlt_dec 245 145), (Rle_dec 145 245), (Rle_dec 245 345);
    try reflexivity; lra.
Qed.

Example incident_voltage_default :
  let '(V_i, V_50, w) := calculate_incident_voltage 23 0.146 0.03 in
  w = 3.358 /\ V_50 = 1846.9 /\ V_i = 1774.87090.
Proof. unfold calculate_incident_voltage. repeat split; lra. Qed.

Example discharge_current_default :
  calculate_discharge_current 1774.87090 400 = Returned (8.8743545, 10%Z) [].
Proof.
  unfold calculate_discharge_current. rewrite div_nonzero by lra. simpl.
  replace (2 * 1774.87090 / 400) with 8.8743545 by lra.
  unfold nominal_discharge_current.
  destruct (Rle_dec 8.8743545 5); [lra | ].
  destruct (Rle_dec 8.8743545 10); [reflexivity | lra].
Qed.

Example protection_level_default :
  estimate_switching_impulse_protection_level 192 = 355%Z.
Proof.
  unfold estimate_switching_impulse_protection_level, round.
  assert (Hup : up (192 * 1.85) = 356%Z)
    by (symmetry; apply tech_up; simpl; lra).
  rewrite Hup. simpl.
  destruct (Rlt_dec (192 * 1.85 - 355) (1 / 2)); [reflexivity | lra].
Qed.

(** A tie goes to the even neighbour: [330 * 1.85 = 610.5] rounds to 610. *)
Example protection_level_tie :
  estimate_switching_impulse_protection_level 330 = 610%Z.
Proof.
  unfold estimate_switching_impulse_protection_level, round.
  assert (Hup : up (330 * 1.85) = 611%Z)
    by (symmetry; apply tech_up; simpl; lra).
  rewrite Hup. simpl.
  destruct (Rlt_dec (330 * 1.85 - 610) (1 / 2)); [lra | ].
  destruct (Rgt_dec (330 * 1.85 - 610) (1 / 2)); [lra | reflexivity].
Qed.

(** * Further properties of the code *)

(** ** The catalog lookup *)

Lemma catalog_at_most_396 (c : Z) : In c standard_values -> (96 <= c <= 396)%Z.
Proof.
  unfold standard_values. simpl. intros Hc.
  repeat (destruct Hc as [<- | Hc]; [lia | ]). contradiction.
Qed.

Lemma catalog_has_396 : In 396%Z standard_values.
Proof. unfold standard_values. simpl. tauto. Qed.

Lemma normalized_least (x : R) (c : Z) :
  In c standard_values -> x <= IZR c ->
  x <= IZR (normalized_rated_voltage x) /\ (normalized_rated_voltage x <= c)%Z.
Proof.
  intros Hc Hxc. unfold normalized_rated_voltage.
  destruct (first_at_least standard_values x) as [r | ] eqn:Hscan.
  - split; [now apply first_at_least_found in Hscan | ].
    exact (first_at_least_least _ _ _ standard_values_sorted Hscan c Hc Hxc).
  - pose proof (proj1 (first_at_least_none _ _) Hscan c Hc). lra.
Qed.

Lemma normalized_above_catalog (x : R) :
  396 < x -> normalized_rated_voltage x = 396%Z.
Proof.
  intros Hx. unfold normalized_rated_voltage.
  rewrite (proj2 (first_at_least_none standard_values x)); [reflexivity | ].
  intros c Hc. apply catalog_at_most_396 in Hc.
  assert (IZR c <= 396) by (apply IZR_le; lia). lra.
Qed.

Lemma normalized_of_entry (c : Z) :
  In c standard_values -> normalized_rated_voltage (IZR c) = c.
Proof.
  intros Hc. destruct (normalized_least (IZR c) c Hc (Rle_refl _)) as [Hle Hge].
  apply le_IZR in Hle. lia.
Qed.

(** X1: the lookup is monotone: a larger theoretical voltage never gets a
    smaller catalog rating. *)
Theorem normalized_rated_voltage_monotone (a b : R) :
  a <= b -> (normalized_rated_voltage a <= normalized_rated_voltage b)%Z.
Proof.
  intros Hab. destruct (Rle_dec b 396) as [Hb | Hb].
  - destruct (normalized_least b 396 catalog_has_396 Hb) as [Hcover _].
    apply (normalized_least a (normalized_rated_voltage b)).
    + apply normalized_in_catalog.
    + lra.
  - rewrite (normalized_above_catalog b) by lra.
    apply catalog_at_most_396, normalized_in_catalog.
Qed.

Lemma normalized_rated_voltage_monotone_witness :
  (normalized_rated_voltage 150 <= normalized_rated_voltage 185.5)%Z.
Proof.
  apply (normalized_rated_voltage_monotone 150 185.5). lra.
Defined.

(** X2: normalizing a rating that is already normalized changes nothing. *)
Theorem normalized_rated_voltage_idempotent (x : R) :
  normalized_rated_voltage (IZR (normalized_rated_voltage x))
  = normalized_rated_voltage x.
Proof.
  apply normalized_of_entry, normalized_in_catalog.
Qed.

(** X3: the rating returned covers the theoretical voltage exactly when that
    voltage is at most 396: above the catalog the function returns 396, a
    rating below what was asked for, and gives no sign of it. *)
Theorem normalized_rated_voltage_covers_iff (x : R) :
  (x <= IZR (normalized_rated_voltage x) <-> x <= 396) /\
  (396 < x ->
     normalized_rated_voltage x = 396%Z /\ IZR (normalized_rated_voltage x) < x).
Proof.
  split; [split | ].
  - intros Hcover.
    pose proof (catalog_at_most_396 _ (normalized_in_catalog x)) as [_ Hmax].
    apply IZR_le in Hmax. lra.
  - intros Hx. apply (normalized_least x 396 catalog_has_396 Hx).
  - intros Hx. rewrite (normalized_above_catalog x Hx). split; [reflexivity | lra].
Qed.

(** ** Rated voltage and catalog together *)

(** X4: when both candidates are within the catalog, the normalized rating is at
    least each of them: the arrester selected meets the continuous-duty and
    the temporary-overvoltage requirement. *)
Theorem normalized_rating_covers_both_candidates (cov tov k_d k_tov : R) :
  k_d <> 0 -> k_tov <> 0 -> cov / k_d <= 396 -> tov / k_tov <= 396 ->
  exists U_r_theoretical U_r1 U_r2,
    calculate_rated_voltage cov tov k_d k_tov
    = Returned (U_r_theoretical, U_r1, U_r2) [] /\
    U_r1 <= IZR (normalized_rated_voltage U_r_theoretical) /\
    U_r2 <= IZR (normalized_rated_voltage U_r_theoretical).
Proof.
  intros Hd Ht H1 H2.
  exists (Rmax (cov / k_d) (tov / k_tov)), (cov / k_d), (tov / k_tov).
  split; [now apply calculate_rated_voltage_nonzero | ].
  assert (Hmax : Rmax (cov / k_d) (tov / k_tov) <= 396) by (apply Rmax_lub; assumption).
  destruct (normalized_least _ 396 catalog_has_396 Hmax) as [Hcover _].
  pose proof (Rmax_l (cov / k_d) (tov / k_tov)).
  pose proof (Rmax_r (cov / k_d) (tov / k_tov)).
  split; lra.
Qed.

Lemma normalized_rating_covers_both_candidates_witness :
  exists U_r_theoretical U_r1 U_r2,
    calculate_rated_voltage 148 207 0.8 1.15
    = Returned (U_r_theoretical, U_r1, U_r2) [] /\
    U_r1 <= IZR (normalized_rated_voltage U_r_theoretical) /\
    U_r2 <= IZR (normalized_rated_voltage U_r_theoretical).
Proof.
  apply (normalized_rating_covers_both_candidates 148 207 0.8 1.15); lra.
Defined.

(** X5: when the continuous-duty candidate alone exceeds 396 (for a positive
    [k_d]: [cov > 396 * k_d]), the pipeline selects 396, below the theoretical
    rated voltage it was given. *)
Theorem normalized_rating_saturates (cov tov k_d k_tov : R) :
  0 < k_d -> k_tov <> 0 -> 396 * k_d < cov ->
  exists U_r_theoretical U_r1 U_r2,
    calculate_rated_voltage cov tov k_d k_tov
    = Returned (U_r_theoretical, U_r1, U_r2) [] /\
    normalized_rated_voltage U_r_theoretical = 396%Z /\
    396 < U_r_theoretical.
Proof.
  intros Hd Ht Hcov.
  exists (Rmax (cov / k_d) (tov / k_tov)), (cov / k_d), (tov / k_tov).
  split; [apply calculate_rated_voltage_nonzero; lra | ].
  assert (H1 : 396 < cov / k_d).
  { apply Rmult_lt_reg_r with k_d; [assumption | ].
    replace (cov / k_d * k_d) with cov by (field; lra). lra. }
  pose proof (Rmax_l (cov / k_d) (tov / k_tov)).
  split; [apply normalized_above_catalog | ]; lra.
Qed.

Lemma normalized_rating_saturates_witness :
  exists U_r_theoretical U_r1 U_r2,
    calculate_rated_voltage 300 420 0.5 1.15
    = Returned (U_r_theoretical, U_r1, U_r2) [] /\
    normalized_rated_voltage U_r_theoretical = 396%Z /\
    396 < U_r_theoretical.
Proof.
  apply (normalized_rating_saturates 300 420 0.5 1.15); lra.
Defined.

(** X6: with [tov] computed from [cov] as the block does, which candidate is the
    rated voltage depends on the factors alone: the continuous-duty candidate
    [U_r1] is selected exactly when [K_e * k_d <= k_tov], the overvoltage
    candidate [U_r2] exactly when [k_tov <= K_e * k_d]. *)
Theorem binding_candidate (cov K_e k_d k_tov : R) :
  0 < cov -> 0 < k_d -> 0 < k_tov ->
  exists U_r_theoretical U_r1 U_r2,
    calculate_rated_voltage cov (calculate_tov cov K_e) k_d k_tov
    = Returned (U_r_theoretical, U_r1, U_r2) [] /\
    (U_r_theoretical = U_r1 <-> K_e * k_d <= k_tov) /\
    (U_r_theoretical = U_r2 <-> k_tov <= K_e * k_d).
Proof.
  intros Hcov Hd Ht. unfold calculate_tov.
  exists (Rmax (cov / k_d) (K_e * cov / k_tov)), (cov / k_d), (K_e * cov / k_tov).
  split; [apply calculate_rated_voltage_nonzero; lra | ].
  set (p := cov / (k_d * k_tov)).
  assert (Hp : 0 < p) by (apply Rdiv_lt_0_compat; nra).
  assert (Hdiff : cov / k_d - K_e * cov / k_tov = p * (k_tov - K_e * k_d))
    by (unfold p; field; lra).
  unfold Rmax. destruct (Rle_dec (cov / k_d) (K_e * cov / k_tov)) as [Hle | Hnle];
    split; split; intros H; try reflexivity; nra.
Qed.

Lemma binding_candidate_witness :
  exists U_r_theoretical U_r1 U_r2,
    calculate_rated_voltage 148 (calculate_tov 148 1.4) 0.8 1.15
    = Returned (U_r_theoretical, U_r1, U_r2) [] /\
    (U_r_theoretical = U_r1 <-> 1.4 * 0.8 <= 1.15) /\
    (U_r_theoretical = U_r2 <-> 1.15 <= 1.4 * 0.8).
Proof.
  apply (binding_candidate 148 1.4 0.8 1.15); lra.
Defined.

(** ** Continuous and temporary voltages *)

(** X7: for a positive [U_m] the continuous operating voltage lies between
    60.62% and 60.63% of it, and with an earth-fault factor of at least 1 the
    temporary overvoltage is at least the continuous one. *)
Theorem calculate_cov_tov_bounds (U_m K_e : R) :
  0 < U_m -> 1 <= K_e ->
  0.6062 * U_m < calculate_cov U_m < 0.6063 * U_m /\
  calculate_cov U_m <= calculate_tov (calculate_cov U_m) K_e.
Proof.
  intros HU HK. unfold calculate_tov, calculate_cov.
  destruct sqrt_3_bounds as [Hlo Hhi].
  assert (Hq : U_m / sqrt 3 * sqrt 3 = U_m) by (field; lra).
  set (q := U_m / sqrt 3) in *.
  assert (Hqpos : 0 < q) by nra.
  repeat split; nra.
Qed.

Lemma calculate_cov_tov_bounds_witness :
  0.6062 * 245 < calculate_cov 245 < 0.6063 * 245 /\
  calculate_cov 245 <= calculate_tov (calculate_cov 245) 1.4.
Proof.
  apply (calculate_cov_tov_bounds 245 1.4); lra.
Defined.

(** ** The incident voltage *)

(** X8: for a string of positive length and [sigma] within the widget bounds
    (0.01 to 0.1), the incident voltage is between 87% and 98.7% of the
    critical flashover voltage [V_50 = 550 * w]. *)
Theorem calculate_incident_voltage_bounds
  (num_insulators : Z) (insulator_length sigma : R) :
  (0 < num_insulators)%Z -> 0 < insulator_length -> 0.01 <= sigma <= 0.1 ->
  let '(V_i, V_50, w) :=
    calculate_incident_voltage num_insulators insulator_length sigma in
  0 < w /\ V_50 = 550 * w /\ 0.87 * V_50 <= V_i <= 0.987 * V_50.
Proof.
  intros Hnum Hlen Hsigma. unfold calculate_incident_voltage.
  assert (Hn : 1 <= IZR num_insulators) by (apply IZR_le; lia).
  set (w := IZR num_insulators * insulator_length).
  assert (Hw : 0 < w) by (unfold w; nra).
  repeat split; nra.
Qed.

Lemma calculate_incident_voltage_bounds_witness :
  let '(V_i, V_50, w) := calculate_incident_voltage 23 0.146 0.03 in
  0 < w /\ V_50 = 550 * w /\ 0.87 * V_50 <= V_i <= 0.987 * V_50.
Proof.
  apply (calculate_incident_voltage_bounds 23 0.146 0.03); lra || lia.
Defined.

(** ** The discharge current *)

(** X9: [calculate_discharge_current] raises exactly when [Z_0] is zero,
    whatever [V_i] is (also for [V_i = 0]), and then with
    [ZeroDivisionError]. *)
Theorem calculate_discharge_current_raises_iff_zero (V_i Z_0 : R) :
  (Z_0 = 0 -> calculate_discharge_current V_i Z_0 = Raised ZeroDivisionError) /\
  (forall e, calculate_discharge_current V_i Z_0 = Raised e ->
     Z_0 = 0 /\ e = ZeroDivisionError).
Proof.
  unfold calculate_discharge_current. split.
  - intros ->. now rewrite div_zero.
  - intros e. destruct (Req_dec_T Z_0 0) as [HZ | HZ].
    + subst. rewrite div_zero. simpl. intros H. inversion H. tauto.
    + rewrite div_nonzero by assumption. discriminate.
Qed.

(** X10: the nominal current is always one of 5, 10 and 20 (5 for every computed
    current up to 5, negative ones included) and never decreases when the
    computed current grows. *)
Theorem nominal_discharge_current_monotone (I_d : R) :
  In (nominal_discharge_current I_d) [5; 10; 20]%Z /\
  (forall I_d', I_d <= I_d' ->
     (nominal_discharge_current I_d <= nominal_discharge_current I_d')%Z).
Proof.
  split.
  - unfold nominal_discharge_current. simpl.
    repeat destruct (Rle_dec _ _); tauto.
  - intros I_d' Hle. unfold nominal_discharge_current.
    repeat destruct (Rle_dec _ _); try lia; lra.
Qed.

(** ** The line-discharge energy: errors *)

Lemma calculate_energy_absorption_zero_velocity
  (V_50 U_res U_r Z_0 line_length v : R) (N n : Z) :
  v = 0 ->
  calculate_energy_absorption V_50 U_res U_r Z_0 line_length v N n
  = Raised ZeroDivisionError.
Proof. intros ->. unfold calculate_energy_absorption. now rewrite div_zero. Qed.

Lemma calculate_energy_absorption_zero_residual
  (V_50 U_res U_r Z_0 line_length v : R) (N n : Z) :
  v <> 0 -> U_res = 0 ->
  calculate_energy_absorption V_50 U_res U_r Z_0 line_length v N n
  = Raised ZeroDivisionError.
Proof.
  intros Hv ->. unfold calculate_energy_absorption.
  rewrite (div_nonzero line_length v Hv). simpl. now rewrite div_zero.
Qed.

Lemma calculate_energy_absorption_log_domain
  (V_50 U_res U_r Z_0 line_length v : R) (N n : Z) :
  v <> 0 -> U_res <> 0 -> 2 * V_50 / U_res <= 0 ->
  calculate_energy_absorption V_50 U_res U_r Z_0 line_length v N n
  = Raised ValueError.
Proof.
  intros Hv Hres Hq. unfold calculate_energy_absorption.
  rewrite (div_nonzero line_length v Hv). simpl.
  rewrite (div_nonzero (2 * V_50) U_res Hres). simpl.
  unfold log. destruct (Rle_dec (2 * V_50 / U_res) 0); [reflexivity | contradiction].
Qed.

Lemma calculate_energy_absorption_zero_divisor
  (V_50 U_res U_r Z_0 line_length v : R) (N n : Z) :
  v <> 0 -> U_res <> 0 -> 0 < 2 * V_50 / U_res -> Z_0 = 0 \/ U_r = 0 ->
  calculate_energy_absorption V_50 U_res U_r Z_0 line_length v N n
  = Raised ZeroDivisionError.
Proof.
  intros Hv Hres Hq Hzero. unfold calculate_energy_absorption.
  rewrite (div_nonzero line_length v Hv). simpl.
  rewrite (div_nonzero (2 * V_50) U_res Hres). simpl.
  rewrite (log_positive _ Hq). simpl.
  destruct (Req_dec_T Z_0 0) as [HZ | HZ].
  - subst Z_0. now rewrite div_zero.
  - destruct Hzero as [H | H]; [contradiction | subst U_r].
    rewrite (div_nonzero _ Z_0 HZ). simpl.
    replace (0 * 1000) with 0 by lra. now rewrite div_zero.
Qed.

(** X11: [calculate_energy_absorption] returns exactly when [v], [U_res], [Z_0]
    and [U_r] are nonzero and [2 * V_50 / U_res] is positive.  It raises
    [ValueError] exactly when [v] and [U_res] are nonzero and
    [2 * V_50 / U_res <= 0] (the logarithm is reached before the divisions by
    [Z_0] and [U_r]); in every other failing case it raises
    [ZeroDivisionError]. *)
Theorem calculate_energy_absorption_outcomes
  (V_50 U_res U_r Z_0 line_length v : R) (N n : Z) :
  ((exists r, calculate_energy_absorption V_50 U_res U_r Z_0 line_length v N n
              = Returned r [])
   <-> v <> 0 /\ U_res <> 0 /\ 0 < 2 * V_50 / U_res /\ Z_0 <> 0 /\ U_r <> 0) /\
  (calculate_energy_absorption V_50 U_res U_r Z_0 line_length v N n
   = Raised ValueError
   <-> v <> 0 /\ U_res <> 0 /\ 2 * V_50 / U_res <= 0) /\
  (calculate_energy_absorption V_50 U_res U_r Z_0 line_length v N n
   = Raised ZeroDivisionError
   <-> v = 0 \/ U_res = 0 \/
       (0 < 2 * V_50 / U_res /\ (Z_0 = 0 \/ U_r = 0))).
Proof.
  destruct (Req_dec_T v 0) as [Hv | Hv];
    [ rewrite (calculate_energy_absorption_zero_velocity _ _ _ _ _ _ _ _ Hv)
    | destruct (Req_dec_T U_res 0) as [Hres | Hres];
      [ rewrite (calculate_energy_absorption_zero_residual _ _ _ _ _ _ _ _ Hv Hres)
      | destruct (Rle_dec (2 * V_50 / U_res) 0) as [Hq | Hq];
        [ rewrite (calculate_energy_absorption_log_domain _ _ _ _ _ _ _ _ Hv Hres Hq)
        | assert (Hq' : 0 < 2 * V_50 / U_res) by lra;
          destruct (Req_dec_T Z_0 0) as [HZ | HZ];
          [ rewrite (calculate_energy_absorption_zero_divisor _ _ _ _ _ _ _ _
                       Hv Hres Hq' (or_introl HZ))
          | destruct (Req_dec_T U_r 0) as [Hr | Hr];
            [ rewrite (calculate_energy_absorption_zero_divisor _ _ _ _ _ _ _ _
                         Hv Hres Hq' (or_intror Hr))
            | rewrite (calculate_energy_absorption_defined _ _ _ _ _ _ _ _
                         Hv Hres Hq' HZ Hr) ] ] ] ] ];
    (split; [ | split]); split; intros H;
    first [ discriminate H
          | match type of H with
            | ex _ => destruct H as [r Hret]; discriminate Hret
            end
          | reflexivity
          | now (eexists; reflexivity)
          | tauto
          | (exfalso; intuition lra)
          | intuition lra ].
Qed.

(** ** The line-discharge energy: values *)

(** X12: energy and specific energy are proportional to the number [n] of
    consecutive discharges; the travel time does not depend on it. *)
Theorem calculate_energy_absorption_scales_with_n
  (V_50 U_res U_r Z_0 line_length v : R) (N n : Z) :
  v <> 0 -> U_res <> 0 -> 0 < 2 * V_50 / U_res -> Z_0 <> 0 -> U_r <> 0 ->
  exists W W_prime T_w,
    calculate_energy_absorption V_50 U_res U_r Z_0 line_length v N 1
    = Returned (W, W_prime, T_w, discharge_class_of W_prime) [] /\
    calculate_energy_absorption V_50 U_res U_r Z_0 line_length v N n
    = Returned (IZR n * W, IZR n * W_prime, T_w,
                discharge_class_of (IZR n * W_prime)) [].
Proof.
  intros Hv Hres Hq HZ Hr.
  rewrite !calculate_energy_absorption_defined by assumption.
  eexists _, _, _. split; [reflexivity | ].
  set (A := 2 * V_50 - IZR N * U_res * (1 + ln (2 * V_50 / U_res))).
  set (T_w := line_length / v).
  replace (A * (U_res * T_w * IZR n) / Z_0)
    with (IZR n * (A * (U_res * T_w * 1) / Z_0)) by (field; assumption).
  replace (IZR n * (A * (U_res * T_w * 1) / Z_0) / (U_r * 1000))
    with (IZR n * (A * (U_res * T_w * 1) / Z_0 / (U_r * 1000)))
    by (field; split; assumption).
  reflexivity.
Qed.

Lemma calculate_energy_absorption_scales_with_n_witness :
  exists W W_prime T_w,
    calculate_energy_absorption 452 452 192 400 22.94 0.3 1 1
    = Returned (W, W_prime, T_w, discharge_class_of W_prime) [] /\
    calculate_energy_absorption 452 452 192 400 22.94 0.3 1 2
    = Returned (IZR 2 * W, IZR 2 * W_prime, T_w,
                discharge_class_of (IZR 2 * W_prime)) [].
Proof.
  apply (calculate_energy_absorption_scales_with_n 452 452 192 400 22.94 0.3 1 2);
    lra.
Defined.

(** X13: the function has no guard on the sign of the energy: when
    [2 * V_50 <= N * U_res * (1 + ln (2 * V_50 / U_res))] (all other inputs
    positive) the energy returned is zero or negative, and the discharge class
    is 1. *)
Theorem calculate_energy_absorption_nonpositive
  (V_50 U_res U_r Z_0 line_length v : R) (N n : Z) :
  0 < V_50 -> 0 < U_res -> 0 < U_r -> 0 < Z_0 -> 0 < line_length -> 0 < v ->
  (0 < n)%Z ->
  2 * V_50 <= IZR N * U_res * (1 + ln (2 * V_50 / U_res)) ->
  exists W W_prime T_w,
    calculate_energy_absorption V_50 U_res U_r Z_0 line_length v N n
    = Returned (W, W_prime, T_w, 1%Z) [] /\
    W <= 0 /\ W_prime <= 0.
Proof.
  intros HV Hres Hr HZ Hl Hv Hn Hneg.
  assert (Hq : 0 < 2 * V_50 / U_res) by (apply Rdiv_lt_0_compat; lra).
  rewrite calculate_energy_absorption_defined by lra.
  set (A := 2 * V_50 - IZR N * U_res * (1 + ln (2 * V_50 / U_res))).
  set (T_w := line_length / v).
  assert (HT : 0 < T_w) by (apply Rdiv_lt_0_compat; assumption).
  assert (Hn' : 1 <= IZR n) by (apply IZR_le; lia).
  assert (HA : A <= 0) by (unfold A; lra).
  assert (HB : 0 < U_res * T_w * IZR n / Z_0).
  { apply Rdiv_lt_0_compat; [ | assumption].
    apply Rmult_lt_0_compat; [apply Rmult_lt_0_compat; assumption | lra]. }
  assert (HW : A * (U_res * T_w * IZR n) / Z_0 <= 0).
  { replace (A * (U_res * T_w * IZR n) / Z_0)
      with (A * (U_res * T_w * IZR n / Z_0)) by (field; lra).
    nra. }
  set (W := A * (U_res * T_w * IZR n) / Z_0) in *.
  assert (HW' : W / (U_r * 1000) <= 0).
  { assert (0 < / (U_r * 1000)) by (apply Rinv_0_lt_compat; lra).
    unfold Rdiv. nra. }
  exists W, (W / (U_r * 1000)), T_w. repeat split; try assumption.
  unfold discharge_class_of.
  destruct (Rle_dec (W / (U_r * 1000)) 1); [reflexivity | lra].
Qed.

Lemma calculate_energy_absorption_nonpositive_witness :
  exists W W_prime T_w,
    calculate_energy_absorption 226 452 192 400 22.94 0.3 1 2
    = Returned (W, W_prime, T_w, 1%Z) [] /\
    W <= 0 /\ W_prime <= 0.
Proof.
  apply (calculate_energy_absorption_nonpositive 226 452 192 400 22.94 0.3 1 2);
    try lra; try lia.
  replace (2 * 226 / 452) with 1 by lra. rewrite ln_1. lra.
Defined.

(** ** Rounding and the switching-impulse estimate *)

Lemma floor_bounds (x : R) : IZR (up x - 1) <= x < IZR (up x - 1) + 1.
Proof.
  destruct (archimed x) as [Hgt Hle]. rewrite minus_IZR. lra.
Qed.

Lemma round_half_bounds (x : R) : - (1 / 2) <= IZR (round x) - x <= 1 / 2.
Proof.
  pose proof (floor_bounds x) as [Hlo Hhi]. unfold round. cbv zeta.
  set (f := (up x - 1)%Z) in *.
  destruct (Rlt_dec (x - IZR f) (1 / 2)) as [Hlt | Hnlt];
    [ | destruct (Rgt_dec (x - IZR f) (1 / 2)) as [Hgt | Hngt];
        [ | destruct (Z.even f) ] ];
    rewrite ?plus_IZR; lra.
Qed.

Lemma round_monotone (x y : R) : x <= y -> (round x <= round y)%Z.
Proof.
  intros Hxy. destruct (Z_le_gt_dec (round x) (round y)) as [Hle | Hgt];
    [assumption | exfalso].
  pose proof (round_half_bounds x) as Hx.
  pose proof (round_half_bounds y) as Hy.
  assert (Hstep : IZR (round y) + 1 <= IZR (round x)).
  { rewrite <- plus_IZR. apply IZR_le. lia. }
  assert (Heq : x = y) by lra.
  subst y. lia.
Qed.

(** X14: the estimate is the integer nearest to [1.85 * U_r] (never more than
    one half away), a tie goes to the even integer, and the estimate never
    decreases when [U_r] grows. *)
Theorem protection_level_estimate (U_r : R) :
  Rabs (IZR (estimate_switching_impulse_protection_level U_r) - U_r * 1.85)
    <= 1 / 2 /\
  (forall k : Z, U_r * 1.85 = IZR k + 1 / 2 ->
     Z.even (estimate_switching_impulse_protection_level U_r) = true /\
     (k <= estimate_switching_impulse_protection_level U_r <= k + 1)%Z) /\
  (forall U_r', U_r <= U_r' ->
     (estimate_switching_impulse_protection_level U_r
      <= estimate_switching_impulse_protection_level U_r')%Z).
Proof.
  unfold estimate_switching_impulse_protection_level.
  split; [apply Rabs_le, round_half_bounds | split].
  - intros k Hk.
    assert (Hup : up (U_r * 1.85) = (k + 1)%Z).
    { symmetry. apply tech_up; rewrite plus_IZR; lra. }
    unfold round. cbv zeta. rewrite Hup.
    replace (k + 1 - 1)%Z with k by lia.
    destruct (Rlt_dec (U_r * 1.85 - IZR k) (1 / 2)) as [H | _]; [lra | ].
    destruct (Rgt_dec (U_r * 1.85 - IZR k) (1 / 2)) as [H | _]; [lra | ].
    destruct (Z.even k) eqn:Heven.
    + split; [assumption | lia].
    + split; [ | lia].
      replace (k + 1)%Z with (Z.succ k) by lia.
      rewrite Z.even_succ, <- Z.negb_even, Heven. reflexivity.
  - intros U_r' Hle. apply round_monotone. lra.
Qed.

(** ** The block: when it completes *)

Lemma calculate_rated_voltage_zero (cov tov k_d k_tov : R) :
  k_d = 0 \/ k_tov = 0 ->
  calculate_rated_voltage cov tov k_d k_tov = Raised ZeroDivisionError.
Proof.
  unfold calculate_rated_voltage.
  destruct (Req_dec_T k_d 0) as [Hd | Hd].
  - intros _. subst k_d. now rewrite div_zero.
  - intros [H | H]; [contradiction | subst k_tov].
    rewrite (div_nonzero cov k_d Hd). simpl. now rewrite div_zero.
Qed.

(** X15: the block renders the complete page exactly when [k_d], [k_tov], [v] and
    [U_res] are nonzero and the argument of the logarithm,
    [2 * V_50 / U_res] with [V_50 = 550 * num_insulators * insulator_length],
    is positive.  [Z_0] and the normalized [U_r] come from fixed tables and
    are never zero, so they add no condition. *)
Theorem calcular_completes_iff (i : App.inputs) :
  (exists page, App.calcular i [] = (Returned tt [], page)) <->
  App.k_d i <> 0 /\ App.k_tov i <> 0 /\ App.v i <> 0 /\ App.U_res i <> 0%Z /\
  0 < 2 * (550 * (IZR (App.num_insulators i) * App.insulator_length i))
        / IZR (App.U_res i).
Proof.
  split.
  - intros [page Hpage].
    destruct (calcular_cases i)
      as [(e0 & _ & Hrun)
         | [(rated & current & e0 & _ & _ & _ & Hrun)
           | (rated & current & energy & Hrated & _ & Henergy & _)]];
      [rewrite Hrun in Hpage; discriminate | rewrite Hrun in Hpage; discriminate | ].
    destruct rated as [[th r1] r2].
    unfold App.rated_voltage_call in Hrated. cbv zeta in Hrated.
    unfold App.energy_call, calculate_incident_voltage in Henergy.
    cbv beta iota zeta in Henergy.
    assert (Hd : App.k_d i <> 0).
    { intros H. rewrite calculate_rated_voltage_zero in Hrated by (left; exact H).
      discriminate. }
    assert (Ht : App.k_tov i <> 0).
    { intros H. rewrite calculate_rated_voltage_zero in Hrated by (right; exact H).
      discriminate. }
    assert (Hv : App.v i <> 0).
    { intros H.
      rewrite calculate_energy_absorption_zero_velocity in Henergy by exact H.
      discriminate. }
    assert (Hres : IZR (App.U_res i) <> 0).
    { intros H.
      rewrite calculate_energy_absorption_zero_residual in Henergy by assumption.
      discriminate. }
    repeat split; try assumption.
    + intros H. apply Hres. rewrite H. reflexivity.
    + destruct (Rle_dec (2 * (550 * (IZR (App.num_insulators i)
                                      * App.insulator_length i))
                         / IZR (App.U_res i)) 0) as [Hq | Hq]; [ | lra].
      rewrite calculate_energy_absorption_log_domain in Henergy by assumption.
      discriminate.
  - intros (Hd & Ht & Hv & Hres & Hq).
    assert (Hres' : IZR (App.U_res i) <> 0)
      by (intros H; apply Hres; now apply eq_IZR_R0).
    destruct (discharge_current_call_returns i) as [current Hcurrent].
    pose (cov := calculate_cov (App.U_m i)).
    pose (rated := (Rmax (cov / App.k_d i) (calculate_tov cov (App.K_e i) / App.k_tov i),
                    cov / App.k_d i,
                    calculate_tov cov (App.K_e i) / App.k_tov i)).
    assert (Hrated : App.rated_voltage_call i = Returned rated []).
    { unfold App.rated_voltage_call. cbv zeta.
      now rewrite calculate_rated_voltage_nonzero by assumption. }
    assert (Henergy : exists energy, App.energy_call i rated = Returned energy []).
    { unfold App.energy_call, rated, calculate_incident_voltage. cbv beta iota zeta.
      rewrite calculate_energy_absorption_defined; try assumption.
      - eexists. reflexivity.
      - apply select_Z_0_nonzero.
      - match goal with |- IZR (normalized_rated_voltage ?x) <> 0 =>
          pose proof (normalized_positive x) end. lra. }
    destruct Henergy as [energy Henergy].
    eexists. now apply (calcular_returns i rated current energy).
Qed.

(** X17: whatever the widget values, the discharge-current call of the block
    returns: its divisor [Z_0] is 450, 400 or 350.  The current it returns is
    [2 * V_i / Z_0] and the nominal current is 5, 10 or 20. *)
Theorem discharge_current_call_never_raises (i : App.inputs) :
  exists I_d I_d_nominal,
    App.discharge_current_call i = Returned (I_d, I_d_nominal) [] /\
    In (select_Z_0 (App.system_voltage i)) [450; 400; 350]%Z /\
    In I_d_nominal [5; 10; 20]%Z.
Proof.
  unfold App.discharge_current_call, calculate_incident_voltage,
    calculate_discharge_current. cbv beta iota zeta.
  rewrite div_nonzero by apply select_Z_0_nonzero.
  eexists _, _. split; [reflexivity | split].
  - unfold select_Z_0. simpl. repeat destruct (Rlt_dec _ _ ); repeat destruct (Rle_dec _ _); tauto.
  - unfold nominal_discharge_current. simpl. repeat destruct (Rle_dec _ _); tauto.
Qed.

(** X18: every run of the block, completed or not, has rendered the [cov] and
    [tov] sections first. *)
Theorem calcular_always_shows_cov_and_tov (i : App.inputs) :
  exists o rest,
    App.calcular i [] = (o, App.page_at_rated_voltage i ++ rest).
Proof.
  destruct (calcular_cases i)
    as [(e0 & _ & Hrun)
       | [(rated & current & e0 & _ & _ & _ & Hrun)
         | (rated & current & energy & _ & _ & _ & Hrun)]];
    rewrite Hrun.
  - exists (Raised e0), []. now rewrite app_nil_r.
  - destruct rated as [[th r1] r2], current as [I_d I_nom].
    eexists _, _. unfold App.page_at_energy, App.page_at_discharge_current,
      calculate_incident_voltage. cbv beta iota zeta.
    rewrite <- app_assoc. reflexivity.
  - destruct rated as [[th r1] r2], current as [I_d I_nom],
      energy as [[[W W'] T_w] cls].
    eexists _, _. unfold App.page_complete, App.page_at_energy,
      App.page_at_discharge_current, calculate_incident_voltage.
    cbv beta iota zeta. rewrite <- !app_assoc. reflexivity.
Qed.
